(** * Simple-Todo-App: the task routes of the backend

    A shallow embedding of [backend/routes/tasks.js] (the four handlers
    POST /tasks, GET /tasks, PUT /tasks/:id and DELETE /tasks/:id) over
    a model of the one collection they talk to.  The schema is the one
    of [models/Task.js] as printed in ReadMe.md:

      title:     { type: String,  required: true }
      completed: { type: Boolean, default: false }

    The collection is a finite map from [_id] to the two schema fields:
    MongoDB keeps [_id] unique, and [Task.find()] promises no order.
    Everything the handlers await can be rejected; a rejection is an
    [error] value and the handler's [catch] turns it into the 500
    answer.  Each operation takes, besides the collection, a boolean
    [conn]: whether the store answers this call (a lost connection
    rejects it with [ConnectionError]).  The version key that Mongoose
    adds to a document plays no part in the handlers and is left out
    of the model. *)

From Stdlib Require Import Ascii String DecimalString.
From stdpp Require Import gmap strings list fin_maps.

Local Open Scope string_scope.

(** ** Values of a parsed request body *)

(** What [express.json()] leaves in [req.body].  [JNum] carries an
    integer-valued number: the casts below only tell 0 and 1 from the
    other numbers, and print a number for a String path. *)
#[local] Unset Elimination Schemes.
Inductive json : Type :=
  | JNull
  | JBool (b : bool)
  | JNum (z : Z)
  | JStr (s : string)
  | JArr (l : list json)
  | JObj (o : gmap string json).
#[local] Set Elimination Schemes.

(** [const { k } = v]: the property [k] of a body, [None] for
    [undefined].  Only the names [title] and [completed] are read,
    which no array or primitive has. *)
Definition get_prop (k : string) (v : json) : option json :=
  match v with
  | JObj o => o !! k
  | _ => None
  end.

(** ** Errors and the result of an awaited call *)

Inductive error : Type :=
  | CastError
  | ValidationError
  | DuplicateKey
  | ConnectionError.

Inductive result (A : Type) : Type :=
  | Ok (a : A)
  | Err (e : error).
Arguments Ok {A} a.
Arguments Err {A} e.

Definition bind {A B} (r : result A) (k : A → result B) : result B :=
  match r with
  | Ok a => k a
  | Err e => Err e
  end.

Notation "x ←! r ; k" := (bind r (λ x, k))
  (at level 20, r at level 100, k at level 200, only parsing).

(** ** Object identifiers *)

(** A 12-byte ObjectId, as the number its 24 hexadecimal digits spell. *)
Abbreviation ObjectId := N.

Definition ObjectId_wf (oid : ObjectId) : Prop := (oid < 2 ^ 96)%N.

(** The value of a hexadecimal digit, by its character code:
    [0-9], [a-f] or [A-F]. *)
Definition hex_digit (c : ascii) : option N :=
  let n := N_of_ascii c in
  if (48 <=? n)%N && (n <=? 57)%N then Some (n - 48)%N
  else if (97 <=? n)%N && (n <=? 102)%N then Some (n - 87)%N
  else if (65 <=? n)%N && (n <=? 70)%N then Some (n - 55)%N
  else None.

Fixpoint parse_hex (s : string) (acc : N) : option N :=
  match s with
  | "" => Some acc
  | String c s' =>
      match hex_digit c with
      | Some d => parse_hex s' (16 * acc + d)%N
      | None => None
      end
  end.

(** The cast of a path parameter to an ObjectId: exactly 24
    hexadecimal digits, or a CastError. *)
Definition castObjectId (id : string) : result ObjectId :=
  if decide (String.length id = 24%nat)
  then match parse_hex id 0 with
       | Some n => Ok n
       | None => Err CastError
       end
  else Err CastError.

Definition hex_char (d : N) : ascii :=
  if (d <? 10)%N then ascii_of_N (48 + d) else ascii_of_N (87 + d).

(** The [k] low hexadecimal digits of [n], most significant first,
    in front of [acc]. *)
Fixpoint to_hex (k : nat) (n : N) (acc : string) : string :=
  match k with
  | O => acc
  | S k' => to_hex k' (n / 16)%N (String (hex_char (n mod 16)%N) acc)
  end.

(** How an [_id] is written in a JSON answer. *)
Definition toHexString (oid : ObjectId) : string := to_hex 24 oid "".

(** ** The schema's casts and validators *)

(** Number.prototype.toString on an integer. *)
Definition Number_toString (z : Z) : string :=
  NilZero.string_of_int (Z.to_int z).

(** The String cast: nullish values stay, a string is itself, numbers
    and booleans are printed, an object with a string [_id] stands for
    that [_id], arrays and other objects do not cast. *)
Definition castString (v : option json) : result (option string) :=
  match v with
  | None | Some JNull => Ok None
  | Some (JStr s) => Ok (Some s)
  | Some (JNum z) => Ok (Some (Number_toString z))
  | Some (JBool b) => Ok (Some (if b then "true" else "false"))
  | Some (JObj o) =>
      match o !! "_id" with
      | Some (JStr s) => if decide (s = "") then Err CastError else Ok (Some s)
      | _ => Err CastError
      end
  | Some (JArr _) => Err CastError
  end.

(** The Boolean cast: true, 'true', 1, '1', 'yes' are true; false,
    'false', 0, '0', 'no' are false; null stays null; nothing else
    casts. *)
Definition castBoolean (v : json) : result (option bool) :=
  match v with
  | JBool b => Ok (Some b)
  | JNum 1 => Ok (Some true)
  | JNum 0 => Ok (Some false)
  | JStr s =>
      if decide (s = "true" ∨ s = "1" ∨ s = "yes") then Ok (Some true)
      else if decide (s = "false" ∨ s = "0" ∨ s = "no") then Ok (Some false)
      else Err CastError
  | JNull => Ok None
  | _ => Err CastError
  end.

(** [required: true] on a String path: a string of positive length. *)
Definition checkRequired (v : option string) : bool :=
  match v with
  | Some s => bool_decide (s ≠ "")
  | None => false
  end.

(** ** The collection and the model's operations *)

(** A task as the handlers see and answer it. *)
Record Task : Type := mkTask {
  _id : ObjectId;
  title : string;
  completed : option bool   (* [None] is a stored null *)
}.

(** The tasks collection: [_id] to [(title, completed)]. *)
Abbreviation collection := (gmap ObjectId (string * option bool)).

Definition doc_of (kv : ObjectId * (string * option bool)) : Task :=
  {| _id := kv.1; title := kv.2.1; completed := kv.2.2 |}.

(** A document built by [new Task(obj)], before it is saved: a cast
    that failed is kept with the path and reported by [save]. *)
Record Document : Type := mkDocument {
  d_id : ObjectId;
  d_title : result (option string);
  d_completed : option bool
}.

(** [new Task({ title })]: a generated [_id], the cast of the one
    field that is passed, and the default of [completed]. *)
Definition Task_new (oid : ObjectId) (title : option json) : Document :=
  {| d_id := oid; d_title := castString title; d_completed := Some false |}.

Definition validate (d : Document) : result Task :=
  t ←! d_title d;
  match t with
  | Some s =>
      if checkRequired t
      then Ok {| _id := d_id d; title := s; completed := d_completed d |}
      else Err ValidationError
  | None => Err ValidationError
  end.

(** [doc.save()]: validation, then the insert, which the unique index
    on [_id] refuses for a key that is taken. *)
Definition save (conn : bool) (d : Document) (db : collection)
  : result Task * collection :=
  match validate d with
  | Err e => (Err e, db)
  | Ok t =>
      if conn then
        match db !! _id t with
        | Some _ => (Err DuplicateKey, db)
        | None => (Ok t, <[_id t := (title t, completed t)]> db)
        end
      else (Err ConnectionError, db)
  end.

(** [Task.find()]. *)
Definition find (conn : bool) (db : collection) : result (list Task) :=
  if conn then Ok (doc_of <$> map_to_list db) else Err ConnectionError.

(** The cast of the update [{ completed }]: an undefined value is
    dropped from the update, any other is cast for the Boolean path. *)
Definition castUpdate (completed : option json)
  : result (option (option bool)) :=
  match completed with
  | None => Ok None
  | Some v => c ←! castBoolean v; Ok (Some c)
  end.

(** [Task.findByIdAndUpdate(id, { completed }, { new: true })]: the
    document after the update, or null when no document has the id. *)
Definition findByIdAndUpdate (conn : bool) (id : string)
    (completed : option json) (db : collection)
  : result (option Task) * collection :=
  match castObjectId id with
  | Err e => (Err e, db)
  | Ok oid =>
      match castUpdate completed with
      | Err e => (Err e, db)
      | Ok upd =>
          if conn then
            match db !! oid with
            | None => (Ok None, db)
            | Some (t, c) =>
                let c' := default c upd in
                (Ok (Some {| _id := oid; title := t; completed := c' |}),
                 <[oid := (t, c')]> db)
            end
          else (Err ConnectionError, db)
      end
  end.

(** [Task.findByIdAndDelete(id)]: the removed document, or null. *)
Definition findByIdAndDelete (conn : bool) (id : string) (db : collection)
  : result (option Task) * collection :=
  match castObjectId id with
  | Err e => (Err e, db)
  | Ok oid =>
      if conn then
        match db !! oid with
        | None => (Ok None, db)
        | Some (t, c) =>
            (Ok (Some {| _id := oid; title := t; completed := c |}),
             delete oid db)
        end
      else (Err ConnectionError, db)
  end.

(** ** The four route handlers *)

Inductive payload : Type :=
  | PTask (t : Task)          (* res.json(task) *)
  | PTasks (l : list Task)    (* res.json(tasks) *)
  | PNull                     (* res.json(null) *)
  | PMessage (m : string)     (* res.json({ message: m }) *)
  | PEmpty.                   (* res.send() *)

Record response : Type := mkResponse {
  status : nat;
  body : payload
}.

(** [res.status(500).json({ message: 'Server Error' })]. *)
Definition server_error : response :=
  {| status := 500; body := PMessage "Server Error" |}.

(** [router.post('/tasks', ...)]; [oid] is the identifier that
    [new Task] generates. *)
Definition post_tasks (conn : bool) (oid : ObjectId) (req_body : json)
    (db : collection) : response * collection :=
  let title := get_prop "title" req_body in
  let newTask := Task_new oid title in
  match save conn newTask db with
  | (Ok savedTask, db') => ({| status := 201; body := PTask savedTask |}, db')
  | (Err _, db') => (server_error, db')
  end.

(** [router.get('/tasks', ...)]. *)
Definition get_tasks (conn : bool) (db : collection) : response * collection :=
  match find conn db with
  | Ok tasks => ({| status := 200; body := PTasks tasks |}, db)
  | Err _ => (server_error, db)
  end.

(** [router.put('/tasks/:id', ...)]. *)
Definition put_tasks (conn : bool) (id : string) (req_body : json)
    (db : collection) : response * collection :=
  let completed := get_prop "completed" req_body in
  match findByIdAndUpdate conn id completed db with
  | (Ok updatedTask, db') =>
      ({| status := 200;
          body := match updatedTask with Some t => PTask t | None => PNull end |},
       db')
  | (Err _, db') => (server_error, db')
  end.

(** [router.delete('/tasks/:id', ...)]. *)
Definition delete_tasks (conn : bool) (id : string) (db : collection)
  : response * collection :=
  match findByIdAndDelete conn id db with
  | (Ok _, db') => ({| status := 204; body := PEmpty |}, db')
  | (Err _, db') => (server_error, db')
  end.

(** The tasks a List answers when the store is reached. *)
Definition listed (db : collection) : list Task := doc_of <$> map_to_list db.

(** The invariant of the data model: a non-empty title and a boolean
    [completed] on every stored task. *)
Definition task_ok (v : string * option bool) : Prop :=
  v.1 ≠ "" ∧ is_Some v.2.

Definition store_inv (db : collection) : Prop :=
  ∀ k v, db !! k = Some v → task_ok v.

(** A body written as its list of properties. *)
Definition obj (l : list (string * json)) : json := JObj (list_to_map l).

(** Every stored identifier is a 12-byte ObjectId. *)
Definition ids_wf (db : collection) : Prop :=
  ∀ k, is_Some (db !! k) → ObjectId_wf k.

(** ** Requests, as the router hands them to the handlers *)

(** A request that one of the four routes takes, with what its
    handler draws from the environment: whether the store answers,
    and for a POST the identifier that [new Task] generates. *)
Inductive request : Type :=
  | POST (conn : bool) (oid : ObjectId) (req_body : json)
  | GET (conn : bool)
  | PUT (conn : bool) (id : string) (req_body : json)
  | DELETE (conn : bool) (id : string).

Definition handle (rq : request) (db : collection) : response * collection :=
  match rq with
  | POST conn oid req_body => post_tasks conn oid req_body db
  | GET conn => get_tasks conn db
  | PUT conn id req_body => put_tasks conn id req_body db
  | DELETE conn id => delete_tasks conn id db
  end.

(** The requests of a list served one after the other: the answers,
    and the collection that is left. *)
Fixpoint serve (rqs : list request) (db : collection)
  : list response * collection :=
  match rqs with
  | [] => ([], db)
  | rq :: rqs' =>
      let '(r, db1) := handle rq db in
      let '(rs, db2) := serve rqs' db1 in
      (r :: rs, db2)
  end.

(** ** The client: TaskList.js, Task.js and AddTask.js of ReadMe.md *)

(** The handlers of the page act on the page's state and, through the
    routes above, on the collection.  One user action is followed to
    its end before the next: a handler is a function from the state
    and the collection to the state and the collection, given whether
    each of its requests reaches the store.  An identifier goes into
    the request path as the page holds it. *)

(** A task as the client holds it, parsed from a JSON answer: the
    [_id] is the 24-digit string. *)
Record ClientTask : Type := mkClientTask {
  c_id : string;
  c_title : string;
  c_completed : option bool
}.

Definition to_wire (t : Task) : ClientTask :=
  {| c_id := toHexString (_id t); c_title := title t;
     c_completed := completed t |}.

(** The state of the page: [tasks] of TaskList, [title] of AddTask,
    and how many times [console.error] was called. *)
Record ui : Type := mkUi {
  tasks : list ClientTask;
  form_title : string;
  console_errors : nat
}.

(** axios resolves on a 2xx status and rejects on any other. *)
Definition axios_ok (r : response) : bool :=
  (200 <=? status r)%nat && (status r <? 300)%nat.

(** JavaScript truthiness of a [completed] value: null is falsy. *)
Definition truthy (c : option bool) : bool := default false c.

(** [fetchTasks]: GET /api/tasks, then [setTasks(res.data)]; a
    rejected request leaves the state as it is. *)
Definition fetchTasks (conn : bool) (st : ui) (db : collection)
  : ui * collection :=
  let '(r, db1) := get_tasks conn db in
  match axios_ok r, body r with
  | true, PTasks l =>
      ({| tasks := to_wire <$> l; form_title := form_title st;
          console_errors := console_errors st |}, db1)
  | _, _ => (st, db1)
  end.

(** [handleDelete(id)]: DELETE, and when it resolves, [fetchTasks]. *)
Definition handleDelete (conn_delete conn_get : bool) (id : string)
    (st : ui) (db : collection) : ui * collection :=
  let '(r, db1) := delete_tasks conn_delete id db in
  if axios_ok r then fetchTasks conn_get st db1 else (st, db1).

(** [handleComplete(id)]: the task is looked up in [tasks]; reading
    [completed] of a task that is not there throws before anything is
    sent.  Otherwise PUT with the negation of the displayed value,
    and when it resolves, [fetchTasks]. *)
Definition handleComplete (conn_put conn_get : bool) (id : string)
    (st : ui) (db : collection) : ui * collection :=
  match List.find (λ t, String.eqb (c_id t) id) (tasks st) with
  | None => (st, db)
  | Some task =>
      let req_body := obj [("completed", JBool (negb (truthy (c_completed task))))] in
      let '(r, db1) := put_tasks conn_put id req_body db in
      if axios_ok r then fetchTasks conn_get st db1 else (st, db1)
  end.

(** [handleSubmit]: POST the typed title; when it resolves, clear the
    field and [fetchTasks]; when it rejects, [console.error] and
    nothing else. *)
Definition handleSubmit (conn_post : bool) (oid : ObjectId) (conn_get : bool)
    (st : ui) (db : collection) : ui * collection :=
  let req_body := obj [("title", JStr (form_title st))] in
  let '(r, db1) := post_tasks conn_post oid req_body db in
  if axios_ok r
  then fetchTasks conn_get
         {| tasks := tasks st; form_title := "";
            console_errors := console_errors st |} db1
  else ({| tasks := tasks st; form_title := form_title st;
           console_errors := S (console_errors st) |}, db1).

(** What the Task component shows for a task: the text decoration of
    the row, its text, and the label of the toggle button. *)
Record row : Type := mkRow {
  textDecoration : string;
  text : string;
  toggle_label : string
}.

Definition Task_component (task : ClientTask) : row :=
  {| textDecoration := if truthy (c_completed task) then "line-through" else "";
     text := c_title task;
     toggle_label := if truthy (c_completed task) then "Undo" else "Complete" |}.

(** The page shows what the store holds. *)
Definition in_sync (st : ui) (db : collection) : Prop :=
  tasks st = to_wire <$> listed db.

(** ** Object identifiers: printing and casting *)

Section Hex.

Lemma hex_digit_hex_char (d : N) :
  (d < 16)%N → hex_digit (hex_char d) = Some d.
Proof.
  intros Hd. destruct d as [|p]; [reflexivity|].
  do 4 (destruct p as [p|p|]; try reflexivity); lia.
Qed.

Lemma length_to_hex (k : nat) : ∀ n acc,
  String.length (to_hex k n acc) = (k + String.length acc)%nat.
Proof.
  induction k as [|k IH]; intros n acc; simpl; [done|].
  rewrite IH. simpl. lia.
Qed.

Lemma parse_hex_to_hex (k : nat) : ∀ n rest acc,
  parse_hex (to_hex k n rest) acc
  = parse_hex rest (acc * 16 ^ N.of_nat k + n mod 16 ^ N.of_nat k)%N.
Proof.
  induction k as [|k IH]; intros n rest acc.
  - simpl. f_equal. rewrite N.mod_1_r. lia.
  - cbn [to_hex]. rewrite IH. cbn [parse_hex].
    rewrite hex_digit_hex_char by (apply N.mod_lt; lia).
    f_equal. rewrite Nat2N.inj_succ, N.pow_succ_r'.
    rewrite (N.Div0.mod_mul_r n 16). lia.
Qed.

Lemma castObjectId_toHexString (oid : ObjectId) :
  ObjectId_wf oid → castObjectId (toHexString oid) = Ok oid.
Proof.
  intros Hwf. unfold castObjectId, toHexString.
  rewrite decide_True by (by rewrite length_to_hex).
  rewrite parse_hex_to_hex. cbn [parse_hex].
  rewrite N.mul_0_l, N.add_0_l.
  change (16 ^ N.of_nat 24)%N with (2 ^ 96)%N.
  by rewrite N.mod_small.
Qed.

End Hex.

(** ** What a List shows *)

Section Listed.
Implicit Types (db : collection) (x : Task).

Lemma elem_of_listed db x :
  x ∈ listed db ↔ db !! _id x = Some (title x, completed x).
Proof.
  unfold listed. rewrite list_elem_of_fmap. split.
  - intros [[k [t c]] [-> Hin]]. by apply elem_of_map_to_list in Hin.
  - intros Hx. exists (_id x, (title x, completed x)). split.
    + by destruct x.
    + by apply elem_of_map_to_list.
Qed.

Lemma listed_insert_fresh db k v :
  db !! k = None → listed (<[k:=v]> db) ≡ₚ doc_of (k, v) :: listed db.
Proof.
  intros Hk. unfold listed. by rewrite map_to_list_insert.
Qed.

Lemma get_tasks_up db :
  get_tasks true db = ({| status := 200; body := PTasks (listed db) |}, db).
Proof. reflexivity. Qed.

End Listed.

(** ** The handlers, case by case *)

Section Cases.
Implicit Types (db : collection) (id : string) (req_body : json).

Lemma post_tasks_created db oid req_body t :
  get_prop "title" req_body = Some (JStr t) → t ≠ "" → db !! oid = None →
  post_tasks true oid req_body db
  = ({| status := 201;
        body := PTask {| _id := oid; title := t; completed := Some false |} |},
     <[oid := (t, Some false)]> db).
Proof.
  intros Ht Hne Hfresh. unfold post_tasks, save, validate, Task_new.
  rewrite Ht. simpl. rewrite bool_decide_true by done. simpl.
  by rewrite Hfresh.
Qed.

Lemma put_tasks_found db id oid req_body upd t c :
  castObjectId id = Ok oid →
  castUpdate (get_prop "completed" req_body) = Ok upd →
  db !! oid = Some (t, c) →
  put_tasks true id req_body db
  = ({| status := 200;
        body := PTask {| _id := oid; title := t; completed := default c upd |} |},
     <[oid := (t, default c upd)]> db).
Proof.
  intros Hid Hupd Hdb. unfold put_tasks, findByIdAndUpdate.
  by rewrite Hid, Hupd, Hdb.
Qed.

Lemma put_tasks_missing db id oid req_body upd :
  castObjectId id = Ok oid →
  castUpdate (get_prop "completed" req_body) = Ok upd →
  db !! oid = None →
  put_tasks true id req_body db = ({| status := 200; body := PNull |}, db).
Proof.
  intros Hid Hupd Hdb. unfold put_tasks, findByIdAndUpdate.
  by rewrite Hid, Hupd, Hdb.
Qed.

Lemma put_tasks_bad_id conn db id req_body :
  castObjectId id = Err CastError →
  put_tasks conn id req_body db = (server_error, db).
Proof.
  intros Hid. unfold put_tasks, findByIdAndUpdate. by rewrite Hid.
Qed.

Lemma put_tasks_down db id req_body :
  put_tasks false id req_body db = (server_error, db).
Proof.
  unfold put_tasks, findByIdAndUpdate.
  destruct (castObjectId id); [|done].
  by destruct (castUpdate _).
Qed.

Lemma delete_tasks_up db id oid :
  castObjectId id = Ok oid →
  delete_tasks true id db = ({| status := 204; body := PEmpty |}, delete oid db).
Proof.
  intros Hid. unfold delete_tasks, findByIdAndDelete. rewrite Hid.
  destruct (db !! oid) as [[t c]|] eqn:Hdb; [done|].
  by rewrite delete_id.
Qed.

Lemma delete_tasks_bad_id conn db id :
  castObjectId id = Err CastError →
  delete_tasks conn id db = (server_error, db).
Proof.
  intros Hid. unfold delete_tasks, findByIdAndDelete. by rewrite Hid.
Qed.

Lemma delete_tasks_down db id :
  delete_tasks false id db = (server_error, db).
Proof.
  unfold delete_tasks, findByIdAndDelete. by destruct (castObjectId id).
Qed.

Lemma post_tasks_201_fresh conn db oid req_body :
  status (post_tasks conn oid req_body db).1 = 201 → db !! oid = None.
Proof.
  unfold post_tasks, save.
  destruct (validate _) as [t|] eqn:Hv; [|done].
  assert (_id t = oid) as ->.
  { unfold validate in Hv. simpl in Hv.
    destruct (castString _) as [[s|]|]; simpl in Hv; [|done..].
    case_bool_decide; [|done]. by injection Hv as <-. }
  destruct conn; [|done].
  destruct (db !! oid); [done | reflexivity].
Qed.

Lemma castObjectId_Err id e : castObjectId id = Err e → e = CastError.
Proof.
  unfold castObjectId. case_decide; [|congruence].
  destruct (parse_hex id 0); congruence.
Qed.

End Cases.

(** ** A run of the four routes *)

(** POST "Buy milk", GET, PUT completed, DELETE, GET, from the empty
    collection, with 0x5f identifying the new task. *)
Example buy_milk_run :
  let milk b := {| _id := 95%N; title := "Buy milk"; completed := Some b |} in
  let id := "00000000000000000000005f" in
  let '(r1, db1) := post_tasks true 95%N (obj [("title", JStr "Buy milk")]) ∅ in
  let '(r2, db2) := get_tasks true db1 in
  let '(r3, db3) := put_tasks true id (obj [("completed", JBool true)]) db2 in
  let '(r4, db4) := delete_tasks true id db3 in
  let '(r5, db5) := get_tasks true db4 in
  r1 = {| status := 201; body := PTask (milk false) |}
  ∧ r2 = {| status := 200; body := PTasks [milk false] |}
  ∧ r3 = {| status := 200; body := PTask (milk true) |}
  ∧ r4 = {| status := 204; body := PEmpty |}
  ∧ r5 = {| status := 200; body := PTasks [] |}
  ∧ toHexString 95%N = id.
Proof. vm_compute. repeat split. Qed.

(** ** Create, List, Update and Delete together *)

(** C1. For a non-empty title [t], a reachable store and a generated
    identifier that no stored task has, Create answers 201, and the
    List after it shows the tasks of the List before it and exactly one
    more: the new task, with title [t] and [completed] false. *)
Theorem create_then_list (db : collection) (oid : ObjectId)
    (req_body : json) (t : string) :
  get_prop "title" req_body = Some (JStr t) → t ≠ "" → db !! oid = None →
  let new := {| _id := oid; title := t; completed := Some false |} in
  let db' := (post_tasks true oid req_body db).2 in
  status (post_tasks true oid req_body db).1 = 201
  ∧ (get_tasks true db).1 = {| status := 200; body := PTasks (listed db) |}
  ∧ (get_tasks true db').1 = {| status := 200; body := PTasks (listed db') |}
  ∧ listed db' ≡ₚ new :: listed db
  ∧ new ∉ listed db.
Proof.
  intros Ht Hne Hfresh new db'. subst db'.
  rewrite (post_tasks_created db oid req_body t) by done. simpl.
  split_and!; try done.
  - by apply listed_insert_fresh.
  - rewrite elem_of_listed. simpl. by rewrite Hfresh.
Qed.

Lemma create_then_list_witness :
  let db : collection := {[ 1%N := ("Walk the dog", Some true) ]} in
  let db' := (post_tasks true 2%N (obj [("title", JStr "Buy milk")]) db).2 in
  listed db'
  ≡ₚ {| _id := 2%N; title := "Buy milk"; completed := Some false |} :: listed db.
Proof.
  intros db db'.
  refine (proj1 (proj2 (proj2 (proj2
    (create_then_list db 2%N (obj [("title", JStr "Buy milk")]) "Buy milk"
       _ _ _))))).
  - reflexivity.
  - discriminate.
  - reflexivity.
Defined.

(** C4. For a stored task with identifier [id], Update with
    [completed] [b] followed by List shows that task with [completed]
    equal to [b], for [b] true and for [b] false. *)
Theorem update_then_list (db : collection) (id : string) (oid : ObjectId)
    (req_body : json) (b : bool) (t : string) (c : option bool) :
  castObjectId id = Ok oid → db !! oid = Some (t, c) →
  get_prop "completed" req_body = Some (JBool b) →
  let db' := (put_tasks true id req_body db).2 in
  (get_tasks true db').1 = {| status := 200; body := PTasks (listed db') |}
  ∧ {| _id := oid; title := t; completed := Some b |} ∈ listed db'
  ∧ ∀ x, x ∈ listed db' → _id x = oid → completed x = Some b.
Proof.
  intros Hid Hdb Hb db'. subst db'.
  rewrite (put_tasks_found db id oid req_body (Some (Some b)) t c);
    [| done | by rewrite Hb | done].
  simpl. split_and!; [done | |].
  - apply elem_of_listed. simpl. by rewrite lookup_insert_eq.
  - intros x Hx <-. apply elem_of_listed in Hx.
    rewrite lookup_insert_eq in Hx. congruence.
Qed.

Lemma update_then_list_witness :
  let db : collection := {[ 10%N := ("Buy milk", Some false) ]} in
  let id := "00000000000000000000000A" in
  {| _id := 10%N; title := "Buy milk"; completed := Some true |}
  ∈ listed (put_tasks true id (obj [("completed", JBool true)]) db).2.
Proof.
  intros db id.
  refine (proj1 (proj2
    (update_then_list db id 10%N (obj [("completed", JBool true)]) true
       "Buy milk" (Some false) _ _ _))); reflexivity.
Defined.

(** C5. After Delete of [id] on a reachable store, List shows no task
    whose identifier is [id]: none that the path parameter casts to,
    and none that is written [id]. *)
Theorem delete_then_list (db : collection) (id : string) :
  let db' := (delete_tasks true id db).2 in
  (get_tasks true db').1 = {| status := 200; body := PTasks (listed db') |}
  ∧ (∀ x, x ∈ listed db' → castObjectId id ≠ Ok (_id x))
  ∧ (∀ x, x ∈ listed db' → ObjectId_wf (_id x) → toHexString (_id x) ≠ id).
Proof.
  intros db'.
  assert (Hcast : ∀ x, x ∈ listed db' → castObjectId id ≠ Ok (_id x)).
  { intros x Hx Hid. subst db'.
    rewrite (delete_tasks_up db id (_id x)) in Hx by done.
    apply elem_of_listed in Hx. simpl in Hx.
    by rewrite lookup_delete_eq in Hx. }
  split_and!; [done | done |].
  intros x Hx Hwf <-. apply (Hcast x Hx).
  by apply castObjectId_toHexString.
Qed.

(** ** Update: idempotence and frame *)

Section Update.
Implicit Types (db : collection) (id : string) (req_body : json).

(** The store after an Update, whatever it answers. *)
Lemma put_tasks_store conn id req_body db :
  (put_tasks conn id req_body db).2 = db
  ∨ ∃ oid upd t c,
      castObjectId id = Ok oid
      ∧ castUpdate (get_prop "completed" req_body) = Ok upd
      ∧ conn = true
      ∧ db !! oid = Some (t, c)
      ∧ (put_tasks conn id req_body db).2 = <[oid := (t, default c upd)]> db.
Proof.
  unfold put_tasks, findByIdAndUpdate.
  destruct (castObjectId id) as [oid|]; [|by left].
  destruct (castUpdate _) as [upd|]; [|by left].
  destruct conn; [|by left].
  destruct (db !! oid) as [[t c]|] eqn:Hdb; [|by left].
  right. by exists oid, upd, t, c.
Qed.

Lemma default_default (c : option bool) (upd : option (option bool)) :
  default (default c upd) upd = default c upd.
Proof. by destruct upd. Qed.

End Update.

(** C6. An Update that reached the store, applied a second time,
    leaves the store as the first left it; so Update(id, true) twice
    is Update(id, true) once.  It holds for every body, and whether or
    not the second request reaches the store. *)
Theorem update_idempotent (conn : bool) (db : collection) (id : string)
    (req_body : json) :
  let once := (put_tasks true id req_body db).2 in
  (put_tasks conn id req_body once).2 = once
  ∧ (put_tasks conn id req_body (put_tasks conn id req_body db).2).2
    = (put_tasks conn id req_body db).2.
Proof.
  assert (Hup : ∀ c0, (put_tasks c0 id req_body
                        (put_tasks true id req_body db).2).2
                      = (put_tasks true id req_body db).2).
  { intros c0.
    destruct (put_tasks_store true id req_body db)
      as [Hsame | (oid & upd & t & c & Hid & Hupd & _ & Hdb & ->)].
    - rewrite Hsame.
      destruct (put_tasks_store c0 id req_body db)
        as [Hsame' | (oid & upd & t & c & Hid & Hupd & -> & Hdb & Heq)];
        [done|].
      exact Hsame.
    - destruct c0; [|by rewrite put_tasks_down].
      rewrite (put_tasks_found _ id oid req_body upd t (default c upd));
        [| done | done | by rewrite lookup_insert_eq].
      simpl. by rewrite default_default, insert_insert_eq. }
  intros once. split; [apply Hup|].
  destruct conn; [apply Hup|]. by rewrite !put_tasks_down.
Qed.

(** C7. An Update changes no identifier and no title: every stored
    task is still stored under its identifier with its title, no
    identifier comes or goes, and the answer and the store depend on
    the body through its [completed] property alone. *)
Theorem update_frame (conn : bool) (db : collection) (id : string)
    (req_body : json) :
  let db' := (put_tasks conn id req_body db).2 in
  (∀ k t c, db !! k = Some (t, c) → ∃ c', db' !! k = Some (t, c'))
  ∧ dom db' = dom db
  ∧ (∀ req_body',
       get_prop "completed" req_body' = get_prop "completed" req_body →
       put_tasks conn id req_body' db = put_tasks conn id req_body db).
Proof.
  intros db'. split_and!.
  - intros k t c Hk. subst db'.
    destruct (put_tasks_store conn id req_body db)
      as [-> | (oid & upd & t0 & c0 & _ & _ & _ & Hdb & ->)]; [by exists c|].
    destruct (decide (oid = k)) as [->|Hne].
    + rewrite lookup_insert_eq. exists (default c0 upd). congruence.
    + rewrite lookup_insert_ne by done. by exists c.
  - subst db'.
    destruct (put_tasks_store conn id req_body db)
      as [-> | (oid & upd & t0 & c0 & _ & _ & _ & Hdb & ->)]; [done|].
    apply dom_insert_lookup_L. by rewrite Hdb.
  - intros req_body' Heq. unfold put_tasks. by rewrite Heq.
Qed.

(** ** Create: the answer and its identifier *)

(** C8. A POST whose body has the non-empty title [t] is answered 201
    with the stored task: a fresh identifier, title [t], [completed]
    false.  The identifier, as the answer writes it, is at once good
    for an Update, which answers the updated task, and for a Delete,
    which removes it.  No Create is answered 201 with an identifier
    that a stored task already had. *)
Theorem create_response (db : collection) (oid : ObjectId) (req_body : json)
    (t : string) (b : bool) :
  get_prop "title" req_body = Some (JStr t) → t ≠ "" →
  db !! oid = None → ObjectId_wf oid →
  let new := {| _id := oid; title := t; completed := Some false |} in
  let db' := (post_tasks true oid req_body db).2 in
  let id := toHexString (_id new) in
  (post_tasks true oid req_body db).1 = {| status := 201; body := PTask new |}
  ∧ new ∈ listed db'
  ∧ put_tasks true id (obj [("completed", JBool b)]) db'
    = ({| status := 200;
          body := PTask {| _id := oid; title := t; completed := Some b |} |},
       <[oid := (t, Some b)]> db')
  ∧ delete_tasks true id db' = ({| status := 204; body := PEmpty |}, db)
  ∧ (∀ conn0 oid0 req_body0 (db0 : collection),
       status (post_tasks conn0 oid0 req_body0 db0).1 = 201 →
       db0 !! oid0 = None).
Proof.
  intros Ht Hne Hfresh Hwf new db' id. subst db' id.
  rewrite (post_tasks_created db oid req_body t) by done. simpl.
  pose proof (castObjectId_toHexString oid Hwf) as Hid.
  split_and!.
  - done.
  - apply elem_of_listed. simpl. by rewrite lookup_insert_eq.
  - by rewrite (put_tasks_found _ _ oid _ (Some (Some b)) t (Some false));
      [| done | done | rewrite lookup_insert_eq].
  - rewrite (delete_tasks_up _ _ oid) by done.
    by rewrite delete_insert_id.
  - intros conn0 oid0 req_body0 db0. apply post_tasks_201_fresh.
Qed.

Lemma create_response_witness :
  let req_body := obj [("title", JStr "Buy milk")] in
  let db' := (post_tasks true 255%N req_body ∅).2 in
  (post_tasks true 255%N req_body ∅).1
  = {| status := 201;
       body := PTask {| _id := 255%N; title := "Buy milk";
                        completed := Some false |} |}
  ∧ put_tasks true "0000000000000000000000ff"
      (obj [("completed", JBool true)]) db'
    = ({| status := 200;
          body := PTask {| _id := 255%N; title := "Buy milk";
                           completed := Some true |} |},
       <[255%N := ("Buy milk", Some true)]> db')
  ∧ delete_tasks true "0000000000000000000000ff" db'
    = ({| status := 204; body := PEmpty |}, ∅).
Proof.
  intros req_body db'.
  assert (Hwf : ObjectId_wf 255%N) by (unfold ObjectId_wf; lia).
  destruct (create_response ∅ 255%N req_body "Buy milk" true)
    as (H1 & _ & H3 & H4 & _);
    [reflexivity | discriminate | reflexivity | exact Hwf |].
  exact (conj H1 (conj H3 H4)).
Defined.

(** ** Identifiers that match no stored task *)

(** C10. For a well-formed identifier that no stored task has, on a
    reachable store, an Update whose [completed] casts is answered 200
    with a null body, a Delete is answered 204, and both leave the
    store as it was. *)
Theorem missing_id_not_an_error (db : collection) (id : string)
    (oid : ObjectId) (req_body : json) (upd : option (option bool)) :
  castObjectId id = Ok oid → db !! oid = None →
  castUpdate (get_prop "completed" req_body) = Ok upd →
  put_tasks true id req_body db = ({| status := 200; body := PNull |}, db)
  ∧ delete_tasks true id db = ({| status := 204; body := PEmpty |}, db).
Proof.
  intros Hid Hdb Hupd. split.
  - by apply (put_tasks_missing db id oid req_body upd).
  - rewrite (delete_tasks_up db id oid) by done. by rewrite delete_id.
Qed.

Lemma missing_id_not_an_error_witness :
  let db : collection := {[ 1%N := ("Buy milk", Some false) ]} in
  let id := "0000000000000000000000Ab" in
  put_tasks true id (obj [("completed", JBool true)]) db
  = ({| status := 200; body := PNull |}, db)
  ∧ delete_tasks true id db = ({| status := 204; body := PEmpty |}, db).
Proof.
  intros db id.
  apply (missing_id_not_an_error db id 171%N
           (obj [("completed", JBool true)]) (Some (Some true)));
    reflexivity.
Defined.

(** A well-formed identifier that no task has is not an error for
    Update: on the empty store the answer is 200 with a null body,
    which is not the answer to a storage failure. *)
Lemma update_missing_id_is_200 :
  let id := "000000000000000000000000" in
  let req_body := obj [("completed", JBool true)] in
  castObjectId id = Ok 0%N
  ∧ (∅ : collection) !! 0%N = None
  ∧ (put_tasks true id req_body ∅).1 = {| status := 200; body := PNull |}
  ∧ (put_tasks true id req_body ∅).1 ≠ (put_tasks false id req_body ∅).1.
Proof. repeat split. discriminate. Qed.

(** C2, amended. An identifier that does not cast to an ObjectId, which
    therefore matches no stored task, gets from Update the answer a
    storage failure gets: 500 with the fixed message, the store
    untouched. *)
Theorem update_bad_id_is_server_error (conn : bool) (db : collection)
    (id : string) (req_body : json) :
  castObjectId id = Err CastError →
  put_tasks conn id req_body db = (server_error, db)
  ∧ (∀ id' req_body',
       put_tasks conn id req_body db = put_tasks false id' req_body' db).
Proof.
  intros Hid. split.
  - by apply put_tasks_bad_id.
  - intros id' req_body'. by rewrite put_tasks_bad_id, put_tasks_down.
Qed.

Lemma update_bad_id_is_server_error_witness :
  put_tasks true "milk" (obj [("completed", JBool true)])
    {[ 1%N := ("Buy milk", Some false) ]}
  = (server_error, {[ 1%N := ("Buy milk", Some false) ]}).
Proof.
  refine (proj1 (update_bad_id_is_server_error true _ "milk" _ _)).
  reflexivity.
Defined.

(** A well-formed identifier that no task has is not an error for
    Delete either: on the empty store the answer is 204. *)
Lemma delete_missing_id_is_204 :
  let id := "000000000000000000000000" in
  castObjectId id = Ok 0%N
  ∧ (∅ : collection) !! 0%N = None
  ∧ (delete_tasks true id ∅).1 = {| status := 204; body := PEmpty |}
  ∧ (delete_tasks true id ∅).1 ≠ server_error.
Proof. repeat split. discriminate. Qed.

(** C3, amended. Delete answers every request, with 204 or with the
    generic 500, so an unknown identifier cannot crash the service;
    an identifier that does not cast to an ObjectId gets the 500 of a
    storage failure and leaves the store untouched. *)
Theorem delete_bad_id_is_server_error (conn : bool) (db : collection)
    (id : string) :
  castObjectId id = Err CastError →
  delete_tasks conn id db = (server_error, db)
  ∧ (∀ id', delete_tasks conn id db = delete_tasks false id' db)
  ∧ (∀ conn' id' db',
       (delete_tasks conn' id' db').1 = {| status := 204; body := PEmpty |}
       ∨ (delete_tasks conn' id' db').1 = server_error).
Proof.
  intros Hid. split_and!.
  - by apply delete_tasks_bad_id.
  - intros id'. by rewrite delete_tasks_bad_id, delete_tasks_down.
  - intros conn' id' db'. unfold delete_tasks.
    destruct (findByIdAndDelete conn' id' db') as [[?|?] ?]; auto.
Qed.

Lemma delete_bad_id_is_server_error_witness :
  delete_tasks true "milk" {[ 1%N := ("Buy milk", Some false) ]}
  = (server_error, {[ 1%N := ("Buy milk", Some false) ]}).
Proof.
  refine (proj1 (delete_bad_id_is_server_error true _ "milk" _)).
  reflexivity.
Defined.

(** ** The invariant of the stored tasks *)

Section Invariant.
Implicit Types (db : collection) (id : string) (req_body : json).

Lemma store_inv_empty : store_inv ∅.
Proof. intros k v Hk. by rewrite lookup_empty in Hk. Qed.

Lemma store_inv_insert db k v :
  task_ok v → store_inv db → store_inv (<[k:=v]> db).
Proof.
  intros Hv Hdb k' v' Hk'.
  destruct (decide (k = k')) as [->|Hne].
  - rewrite lookup_insert_eq in Hk'. congruence.
  - rewrite lookup_insert_ne in Hk' by done. by apply (Hdb k').
Qed.

Lemma store_inv_delete db k : store_inv db → store_inv (delete k db).
Proof.
  intros Hdb k' v' Hk'. apply lookup_delete_Some in Hk' as [_ Hk'].
  by apply (Hdb k').
Qed.

(** What [validate] lets through. *)
Lemma validate_Ok d t :
  validate d = Ok t →
  _id t = d_id d ∧ title t ≠ "" ∧ completed t = d_completed d.
Proof.
  unfold validate. destruct (d_title d) as [[s|]|]; simpl; [|done..].
  case_bool_decide; [|done]. by intros [= <-].
Qed.

(** The store after a Create, whatever it answers. *)
Lemma post_tasks_store conn oid req_body db :
  (post_tasks conn oid req_body db).2 = db
  ∨ ∃ s, s ≠ "" ∧ (post_tasks conn oid req_body db).2
                  = <[oid := (s, Some false)]> db.
Proof.
  unfold post_tasks, save.
  destruct (validate _) as [t|] eqn:Hv; [|by left].
  apply validate_Ok in Hv as (Hid & Hne & Hc). simpl in Hid, Hc.
  destruct conn; [|by left].
  destruct (db !! _id t); [by left|].
  right. exists (title t). by rewrite Hid, Hc.
Qed.

Lemma post_tasks_no_title conn oid req_body db :
  get_prop "title" req_body = None
  ∨ get_prop "title" req_body = Some JNull
  ∨ get_prop "title" req_body = Some (JStr "") →
  post_tasks conn oid req_body db = (server_error, db).
Proof.
  unfold post_tasks, save, validate, Task_new.
  by intros [-> | [-> | ->]].
Qed.

Lemma castUpdate_not_null v upd :
  v ≠ Some JNull → castUpdate v = Ok (Some upd) → is_Some upd.
Proof.
  unfold castUpdate. destruct v as [j|]; [|done].
  intros Hv. destruct j as [|b|z|s|l|o]; simpl; try done.
  - intros [= <-]. eauto.
  - destruct z as [|[]|]; simpl; try done; intros [= <-]; eauto.
  - repeat case_decide; simpl; try done; intros [= <-]; eauto.
Qed.

End Invariant.

(** An Update whose body has [completed: null] stores the null: a
    store that meets the invariant is taken to one that does not. *)
Lemma update_null_breaks_store_inv :
  let db : collection := {[ 5%N := ("Buy milk", Some false) ]} in
  let req_body := obj [("completed", JNull)] in
  store_inv db
  ∧ ¬ store_inv (put_tasks true "000000000000000000000005" req_body db).2.
Proof.
  split.
  - intros k v Hk. apply lookup_singleton_Some in Hk as [_ <-].
    split; [discriminate | by eexists].
  - intros Hinv.
    destruct (Hinv 5%N ("Buy milk", None)) as [_ [b Hb]]; [reflexivity|].
    discriminate Hb.
Qed.

(** C9, amended. A store in which every task has a non-empty title and
    a boolean [completed] stays so under Create, List and Delete, and
    under every Update whose body does not give [completed] as null.
    A Create whose body has no title, or an empty one, is answered 500
    and stores nothing. *)
Theorem store_inv_preserved (db : collection) :
  store_inv db →
  (∀ conn oid req_body, store_inv (post_tasks conn oid req_body db).2)
  ∧ (∀ conn, (get_tasks conn db).2 = db)
  ∧ (∀ conn id req_body,
       get_prop "completed" req_body ≠ Some JNull →
       store_inv (put_tasks conn id req_body db).2)
  ∧ (∀ conn id, store_inv (delete_tasks conn id db).2)
  ∧ (∀ conn oid req_body,
       get_prop "title" req_body = None
       ∨ get_prop "title" req_body = Some (JStr "") →
       post_tasks conn oid req_body db = (server_error, db)).
Proof.
  intros Hinv. split_and!.
  - intros conn oid req_body.
    destruct (post_tasks_store conn oid req_body db) as [-> | (s & Hs & ->)];
      [done|].
    apply store_inv_insert; [|done]. split; [done | by eexists].
  - intros conn. unfold get_tasks. by destruct (find conn db).
  - intros conn id req_body Hnull.
    destruct (put_tasks_store conn id req_body db)
      as [-> | (oid & upd & t & c & _ & Hupd & _ & Hdb & ->)]; [done|].
    apply store_inv_insert; [|done].
    destruct (Hinv oid (t, c) Hdb) as [Ht Hc]. split; [done|]. simpl.
    destruct upd as [c'|]; [|done]. simpl.
    by apply (castUpdate_not_null (get_prop "completed" req_body)).
  - intros conn id. unfold delete_tasks, findByIdAndDelete.
    destruct (castObjectId id) as [oid|]; [|done].
    destruct conn; [|done].
    destruct (db !! oid) as [[t c]|]; [|done].
    by apply store_inv_delete.
  - intros conn oid req_body Ht. apply post_tasks_no_title. tauto.
Qed.

Lemma store_inv_preserved_witness :
  let db : collection := {[ 5%N := ("Buy milk", Some false) ]} in
  store_inv (put_tasks true "000000000000000000000005"
               (obj [("completed", JStr "yes")]) db).2
  ∧ post_tasks true 6%N (obj [("title", JStr "")]) db = (server_error, db).
Proof.
  intros db.
  assert (Hdb : store_inv db).
  { intros k v Hk. apply lookup_singleton_Some in Hk as [_ <-].
    split; [discriminate | by eexists]. }
  destruct (store_inv_preserved db Hdb) as (_ & _ & Hput & _ & Hpost).
  split.
  - apply Hput. discriminate.
  - apply Hpost. by right.
Defined.

(** ** Further properties of the routes *)

Section Routes.
Implicit Types (db : collection) (id : string) (req_body : json).

(** The three ways a Create, an Update and a Delete can go. *)
Lemma post_tasks_cases conn oid req_body db :
  post_tasks conn oid req_body db = (server_error, db)
  ∨ ∃ s, s ≠ "" ∧ db !! oid = None
         ∧ post_tasks conn oid req_body db
           = ({| status := 201;
                 body := PTask {| _id := oid; title := s;
                                  completed := Some false |} |},
              <[oid := (s, Some false)]> db).
Proof.
  unfold post_tasks, save.
  destruct (validate _) as [t|] eqn:Hv; [|by left].
  apply validate_Ok in Hv as (Hid & Hne & Hc). simpl in Hid, Hc.
  destruct conn; [|by left]. rewrite Hid.
  destruct (db !! oid) eqn:Hdb; [by left|].
  right. exists (title t). split_and!; [done..|].
  destruct t as [i s c]. simpl in *. by subst.
Qed.

Lemma put_tasks_cases conn id req_body db :
  put_tasks conn id req_body db = (server_error, db)
  ∨ (∃ oid, castObjectId id = Ok oid ∧ db !! oid = None
            ∧ put_tasks conn id req_body db
              = ({| status := 200; body := PNull |}, db))
  ∨ (∃ oid upd t c,
       castObjectId id = Ok oid
       ∧ castUpdate (get_prop "completed" req_body) = Ok upd
       ∧ db !! oid = Some (t, c)
       ∧ put_tasks conn id req_body db
         = ({| status := 200;
               body := PTask {| _id := oid; title := t;
                                completed := default c upd |} |},
            <[oid := (t, default c upd)]> db)).
Proof.
  unfold put_tasks, findByIdAndUpdate.
  destruct (castObjectId id) as [oid|]; [|by left].
  destruct (castUpdate _) as [upd|]; [|by left].
  destruct conn; [|by left].
  destruct (db !! oid) as [[t c]|] eqn:Hdb.
  - right; right. by exists oid, upd, t, c.
  - right; left. by exists oid.
Qed.

Lemma delete_tasks_cases conn id db :
  delete_tasks conn id db = (server_error, db)
  ∨ ∃ oid, castObjectId id = Ok oid
           ∧ delete_tasks conn id db
             = ({| status := 204; body := PEmpty |}, delete oid db).
Proof.
  destruct conn; [|left; apply delete_tasks_down].
  destruct (castObjectId id) as [oid|e] eqn:Hid.
  - right. exists oid. split; [done|]. by apply delete_tasks_up.
  - left. apply delete_tasks_bad_id.
    by rewrite (castObjectId_Err id e Hid) in Hid.
Qed.

(** The store after an Update or a Delete that reached it. *)
Lemma put_tasks_alter id req_body db :
  (put_tasks true id req_body db).2
  = match castObjectId id, castUpdate (get_prop "completed" req_body) with
    | Ok oid, Ok upd => alter (λ v, (v.1, default v.2 upd)) oid db
    | _, _ => db
    end.
Proof.
  unfold put_tasks, findByIdAndUpdate.
  destruct (castObjectId id) as [oid|]; [|done].
  destruct (castUpdate _) as [upd|]; [|done].
  destruct (db !! oid) as [[t c]|] eqn:Hdb; simpl.
  - apply map_eq. intros k. destruct (decide (oid = k)) as [<-|Hne].
    + by rewrite lookup_insert_eq, lookup_alter_eq, Hdb.
    + by rewrite lookup_insert_ne, lookup_alter_ne.
  - apply map_eq. intros k. destruct (decide (oid = k)) as [<-|Hne].
    + by rewrite lookup_alter_eq, Hdb.
    + by rewrite lookup_alter_ne.
Qed.

Lemma delete_tasks_delete id db :
  (delete_tasks true id db).2
  = match castObjectId id with Ok oid => delete oid db | Err _ => db end.
Proof.
  destruct (castObjectId id) as [oid|e] eqn:Hid.
  - by rewrite (delete_tasks_up db id oid).
  - rewrite delete_tasks_bad_id; [done|].
    by rewrite (castObjectId_Err id e Hid) in Hid.
Qed.

Lemma length_listed db : length (listed db) = size db.
Proof. unfold listed. by rewrite length_fmap, length_map_to_list. Qed.

End Routes.


(** X2. A List changes nothing in the store, and when the store is
    reached it answers every stored task once: no identifier twice,
    as many tasks as are stored, each with its stored fields. *)
Theorem list_each_task_once (conn : bool) (db : collection) :
  (get_tasks conn db).2 = db
  ∧ (get_tasks true db).1 = {| status := 200; body := PTasks (listed db) |}
  ∧ NoDup (_id <$> listed db)
  ∧ length (listed db) = size db
  ∧ (∀ k t c, db !! k = Some (t, c)
              ↔ {| _id := k; title := t; completed := c |} ∈ listed db).
Proof.
  split_and!.
  - by destruct conn.
  - done.
  - unfold listed. rewrite <- list_fmap_compose.
    apply (NoDup_fst_map_to_list db).
  - apply length_listed.
  - intros k t c. by rewrite elem_of_listed.
Qed.

(** X3. An Update leaves every task but the one its identifier casts
    to exactly as it was, title and [completed]. *)
Theorem update_other_tasks (conn : bool) (db : collection) (id : string)
    (req_body : json) (k : ObjectId) :
  castObjectId id ≠ Ok k →
  (put_tasks conn id req_body db).2 !! k = db !! k.
Proof.
  intros Hk.
  destruct (put_tasks_store conn id req_body db)
    as [-> | (oid & upd & t & c & Hid & _ & _ & _ & ->)]; [done|].
  rewrite lookup_insert_ne; [done|]. congruence.
Qed.

Lemma update_other_tasks_witness :
  let db : collection :=
    {[ 1%N := ("Buy milk", Some false); 2%N := ("Walk the dog", Some false) ]} in
  (put_tasks true "000000000000000000000001"
     (obj [("completed", JBool true)]) db).2 !! 2%N
  = Some ("Walk the dog", Some false).
Proof.
  intros db.
  rewrite (update_other_tasks true db "000000000000000000000001"
             (obj [("completed", JBool true)]) 2%N).
  - reflexivity.
  - discriminate.
Defined.

(** X4. A Delete leaves every task but the one its identifier casts to
    exactly as it was. *)
Theorem delete_other_tasks (conn : bool) (db : collection) (id : string)
    (k : ObjectId) :
  castObjectId id ≠ Ok k →
  (delete_tasks conn id db).2 !! k = db !! k.
Proof.
  intros Hk.
  destruct (delete_tasks_cases conn id db) as [-> | (oid & Hid & ->)]; [done|].
  simpl. rewrite lookup_delete_ne; [done|]. congruence.
Qed.

Lemma delete_other_tasks_witness :
  let db : collection :=
    {[ 1%N := ("Buy milk", Some false); 2%N := ("Walk the dog", Some true) ]} in
  (delete_tasks true "000000000000000000000001" db).2 !! 2%N
  = Some ("Walk the dog", Some true).
Proof.
  intros db.
  rewrite (delete_other_tasks true db "000000000000000000000001" 2%N).
  - reflexivity.
  - discriminate.
Defined.

(** X5. A Delete that reached the store, sent again, is answered as a
    Delete of an unknown task and leaves the store as the first left
    it; the second answer is 204 when the store is reached. *)
Theorem delete_idempotent (conn : bool) (db : collection) (id : string) :
  let once := (delete_tasks true id db).2 in
  (delete_tasks conn id once).2 = once
  ∧ (delete_tasks true id once).1 = (delete_tasks true id db).1.
Proof.
  intros once. subst once.
  destruct (castObjectId id) as [oid|e] eqn:Hid.
  - rewrite (delete_tasks_up db id oid Hid). simpl. split.
    + destruct conn; [|by rewrite delete_tasks_down].
      rewrite (delete_tasks_up _ id oid Hid). simpl.
      by rewrite delete_delete_eq.
    + by rewrite (delete_tasks_up _ id oid Hid).
  - rewrite (castObjectId_Err id e Hid) in Hid.
    by rewrite !delete_tasks_bad_id.
Qed.

(** X6. Of two Updates of one identifier that reach the store, the
    later wins when it sets a value: the store is as if only the later
    had been sent. *)
Theorem update_last_wins (db : collection) (id : string)
    (req_body1 req_body2 : json) (c2 : option bool) :
  castUpdate (get_prop "completed" req_body2) = Ok (Some c2) →
  (put_tasks true id req_body2 (put_tasks true id req_body1 db).2).2
  = (put_tasks true id req_body2 db).2.
Proof.
  intros H2. rewrite !put_tasks_alter, H2.
  destruct (castObjectId id) as [oid|]; [|done].
  destruct (castUpdate (get_prop "completed" req_body1)) as [upd1|]; [|done].
  rewrite alter_alter_eq. apply alter_ext. by intros [t c] _.
Qed.

Lemma update_last_wins_witness :
  let db : collection := {[ 1%N := ("Buy milk", Some false) ]} in
  let id := "000000000000000000000001" in
  (put_tasks true id (obj [("completed", JBool false)])
     (put_tasks true id (obj [("completed", JBool true)]) db).2).2
  = (put_tasks true id (obj [("completed", JBool false)]) db).2.
Proof.
  intros db id.
  apply (update_last_wins db id _ _ (Some false)). reflexivity.
Defined.

(** X7. Updates of two different tasks do not interfere: either order
    leaves the same store, and each is answered as if it were alone. *)
Theorem updates_commute (db : collection) (id1 id2 : string)
    (req_body1 req_body2 : json) :
  castObjectId id1 ≠ castObjectId id2 →
  (put_tasks true id2 req_body2 (put_tasks true id1 req_body1 db).2).2
  = (put_tasks true id1 req_body1 (put_tasks true id2 req_body2 db).2).2
  ∧ (put_tasks true id2 req_body2 (put_tasks true id1 req_body1 db).2).1
    = (put_tasks true id2 req_body2 db).1.
Proof.
  intros Hne. split.
  - rewrite !put_tasks_alter.
    destruct (castObjectId id1) as [oid1|]; [|done].
    destruct (castUpdate (get_prop "completed" req_body1)) as [upd1|]; [|done].
    destruct (castObjectId id2) as [oid2|]; [|done].
    destruct (castUpdate (get_prop "completed" req_body2)) as [upd2|]; [|done].
    apply alter_alter_ne. congruence.
  - destruct (put_tasks_store true id1 req_body1 db)
      as [-> | (oid1 & upd1 & t & c & Hid1 & _ & _ & _ & ->)]; [done|].
    unfold put_tasks, findByIdAndUpdate.
    destruct (castObjectId id2) as [oid2|]; [|done].
    destruct (castUpdate _) as [upd2|]; [|done].
    rewrite lookup_insert_ne by congruence.
    by destruct (db !! oid2) as [[t2 c2]|].
Qed.

Lemma updates_commute_witness :
  let db : collection :=
    {[ 1%N := ("Buy milk", Some false); 2%N := ("Walk the dog", Some false) ]} in
  let id1 := "000000000000000000000001" in
  let id2 := "000000000000000000000002" in
  let done := obj [("completed", JBool true)] in
  (put_tasks true id2 done (put_tasks true id1 done db).2).2
  = (put_tasks true id1 done (put_tasks true id2 done db).2).2.
Proof.
  intros db id1 id2 done.
  refine (proj1 (updates_commute db id1 id2 done done _)). discriminate.
Defined.

(** X8. An Update of one task and a Delete of another do not
    interfere: either order leaves the same store. *)
Theorem update_delete_commute (db : collection) (id1 id2 : string)
    (req_body : json) :
  castObjectId id1 ≠ castObjectId id2 →
  (delete_tasks true id2 (put_tasks true id1 req_body db).2).2
  = (put_tasks true id1 req_body (delete_tasks true id2 db).2).2.
Proof.
  intros Hne. rewrite !put_tasks_alter, !delete_tasks_delete.
  destruct (castObjectId id1) as [oid1|]; [|done].
  destruct (castUpdate (get_prop "completed" req_body)) as [upd|]; [|done].
  destruct (castObjectId id2) as [oid2|]; [|done].
  apply map_eq. intros k.
  destruct (decide (oid2 = k)) as [<-|Hk2].
  - by rewrite lookup_delete_eq, lookup_alter_ne, lookup_delete_eq by congruence.
  - rewrite lookup_delete_ne by done.
    destruct (decide (oid1 = k)) as [<-|Hk1].
    + by rewrite !lookup_alter_eq, lookup_delete_ne.
    + by rewrite !lookup_alter_ne, lookup_delete_ne.
Qed.

Lemma update_delete_commute_witness :
  let db : collection :=
    {[ 1%N := ("Buy milk", Some false); 2%N := ("Walk the dog", Some false) ]} in
  let id1 := "000000000000000000000001" in
  let id2 := "000000000000000000000002" in
  let done := obj [("completed", JBool true)] in
  (delete_tasks true id2 (put_tasks true id1 done db).2).2
  = (put_tasks true id1 done (delete_tasks true id2 db).2).2.
Proof.
  intros db id1 id2 done.
  apply (update_delete_commute db id1 id2 done). discriminate.
Defined.

(** X9. How many tasks a List shows: one more after a Create answered
    201 and as many after any other Create; as many after an Update;
    after a Delete one fewer when the identifier casts to a stored
    task and the store is reached, and as many otherwise. *)
Theorem task_count (db : collection) :
  (∀ conn oid req_body,
     length (listed (post_tasks conn oid req_body db).2)
     = if decide (status (post_tasks conn oid req_body db).1 = 201)
       then S (length (listed db)) else length (listed db))
  ∧ (∀ conn id req_body,
       length (listed (put_tasks conn id req_body db).2) = length (listed db))
  ∧ (∀ conn id,
       length (listed db)
       = match castObjectId id with
         | Ok oid =>
             if conn && bool_decide (is_Some (db !! oid))
             then S (length (listed (delete_tasks conn id db).2))
             else length (listed (delete_tasks conn id db).2)
         | Err _ => length (listed (delete_tasks conn id db).2)
         end).
Proof.
  split_and!.
  - intros conn oid req_body. rewrite !length_listed.
    destruct (post_tasks_cases conn oid req_body db)
      as [-> | (s & _ & Hfresh & ->)]; cbn [fst snd status].
    + by case_decide.
    + case_decide; [|done]. by apply map_size_insert_None.
  - intros conn id req_body. rewrite !length_listed.
    destruct (put_tasks_store conn id req_body db)
      as [-> | (oid & upd & t & c & _ & _ & _ & Hdb & ->)]; [done|].
    apply map_size_insert_Some. by rewrite Hdb.
  - intros conn id.
    destruct (castObjectId id) as [oid|e] eqn:Hid.
    + destruct conn; simpl; [|by rewrite delete_tasks_down].
      rewrite (delete_tasks_up db id oid Hid), !length_listed. simpl.
      case_bool_decide as Hs.
      * destruct Hs as [v Hv].
        rewrite <- (insert_delete_id db oid v Hv) at 1.
        apply map_size_insert_None, lookup_delete_eq.
      * rewrite delete_id; [done|]. by apply eq_None_not_Some.
    + rewrite (castObjectId_Err id e Hid) in Hid.
      by rewrite delete_tasks_bad_id.
Qed.

(** ** Identifiers that the cast accepts *)

Section Cast.

Lemma hex_digit_lt (c : ascii) (d : N) : hex_digit c = Some d → (d < 16)%N.
Proof.
  unfold hex_digit.
  repeat case_match;
    repeat match goal with
           | H : _ && _ = true |- _ => apply andb_true_iff in H as [? ?]
           | H : (_ <=? _)%N = true |- _ => apply N.leb_le in H
           end;
    intros [= <-]; lia.
Qed.

Lemma parse_hex_bound (s : string) : ∀ acc n,
  parse_hex s acc = Some n → (n < (acc + 1) * 16 ^ N.of_nat (String.length s))%N.
Proof.
  induction s as [|c s IH]; intros acc n; cbn [parse_hex String.length].
  - intros [= <-]. simpl. lia.
  - destruct (hex_digit c) as [d|] eqn:Hd; [|done].
    intros Hn. apply IH in Hn. apply hex_digit_lt in Hd.
    rewrite Nat2N.inj_succ, N.pow_succ_r'. nia.
Qed.

Lemma castObjectId_wf (id : string) (oid : ObjectId) :
  castObjectId id = Ok oid → ObjectId_wf oid.
Proof.
  unfold castObjectId. case_decide as Hlen; [|done].
  destruct (parse_hex id 0) as [n|] eqn:Hn; [|done].
  intros [= <-]. apply parse_hex_bound in Hn. rewrite Hlen in Hn.
  unfold ObjectId_wf. by rewrite N.add_0_l, N.mul_1_l in Hn.
Qed.

End Cast.

(** X10. What the cast of a path parameter accepts is a 12-byte
    ObjectId, and the 24 digits it is written with in an answer are
    accepted as the same ObjectId; so an Update or a Delete sent with
    that writing does what it does with [id], whatever the case of
    the digits of [id]. *)
Theorem cast_then_write (id : string) (oid : ObjectId) :
  castObjectId id = Ok oid →
  ObjectId_wf oid
  ∧ String.length (toHexString oid) = 24%nat
  ∧ castObjectId (toHexString oid) = Ok oid
  ∧ (∀ conn req_body (db : collection),
       put_tasks conn (toHexString oid) req_body db
       = put_tasks conn id req_body db)
  ∧ (∀ conn (db : collection),
       delete_tasks conn (toHexString oid) db = delete_tasks conn id db).
Proof.
  intros Hid. pose proof (castObjectId_wf id oid Hid) as Hwf.
  pose proof (castObjectId_toHexString oid Hwf) as Hback.
  split_and!; [done | apply length_to_hex | done | |].
  - intros conn req_body db. unfold put_tasks, findByIdAndUpdate.
    by rewrite Hid, Hback.
  - intros conn db. unfold delete_tasks, findByIdAndDelete.
    by rewrite Hid, Hback.
Qed.

Lemma cast_then_write_witness :
  toHexString 3735928559%N = "0000000000000000deadbeef"
  ∧ ∀ conn (db : collection),
      delete_tasks conn (toHexString 3735928559%N) db
      = delete_tasks conn "0000000000000000DEADbeef" db.
Proof.
  split; [reflexivity|].
  refine (proj2 (proj2 (proj2 (proj2
    (cast_then_write "0000000000000000DEADbeef" 3735928559%N _))))).
  reflexivity.
Defined.

(** ** Sequences of requests *)

Section Serve.
Implicit Types (db : collection) (rq : request) (rqs : list request).

Lemma serve_cons rq rqs db :
  (serve (rq :: rqs) db).2 = (serve rqs (handle rq db).2).2.
Proof.
  cbn [serve]. destruct (handle rq db) as [r db1]. cbn [snd].
  by destruct (serve rqs db1) as [rs db2].
Qed.

Lemma ids_wf_insert db k v : ObjectId_wf k → ids_wf db → ids_wf (<[k:=v]> db).
Proof.
  intros Hk Hdb k' Hk'. destruct (decide (k = k')) as [<-|Hne]; [done|].
  rewrite lookup_insert_ne in Hk' by done. by apply Hdb.
Qed.

Lemma ids_wf_delete db k : ids_wf db → ids_wf (delete k db).
Proof.
  intros Hdb k' [v Hk']. apply lookup_delete_Some in Hk' as [_ Hk'].
  apply Hdb. by rewrite Hk'.
Qed.

(** A request that keeps the invariants: a POST with a 12-byte
    generated identifier, a PUT that does not give [completed] as
    null, any GET, any DELETE. *)
Lemma handle_keeps_inv rq db :
  match rq with
  | POST _ oid _ => ObjectId_wf oid
  | PUT _ _ req_body => get_prop "completed" req_body ≠ Some JNull
  | _ => True
  end →
  store_inv db ∧ ids_wf db →
  store_inv (handle rq db).2 ∧ ids_wf (handle rq db).2.
Proof.
  intros Hrq [Hinv Hwf].
  destruct rq as [conn oid req_body | conn | conn id req_body | conn id]; simpl.
  - destruct (post_tasks_cases conn oid req_body db) as [-> | (s & Hs & _ & ->)];
      [done|]. simpl. split.
    + apply store_inv_insert; [|done]. split; [done | by eexists].
    + by apply ids_wf_insert.
  - by destruct conn.
  - destruct (put_tasks_store conn id req_body db)
      as [-> | (oid & upd & t & c & _ & Hupd & _ & Hdb & ->)]; [done|].
    destruct (Hinv oid (t, c) Hdb) as [Ht Hc]. split.
    + apply store_inv_insert; [|done]. split; [done|]. simpl.
      destruct upd as [c'|]; [|done]. simpl.
      by apply (castUpdate_not_null (get_prop "completed" req_body)).
    + apply ids_wf_insert; [|done]. apply Hwf. by rewrite Hdb.
  - destruct (delete_tasks_cases conn id db) as [-> | (oid & _ & ->)]; [done|].
    simpl. split; [by apply store_inv_delete | by apply ids_wf_delete].
Qed.

End Serve.

(** X11. Over any sequence of requests whose POSTs carry 12-byte
    generated identifiers and whose PUTs do not give [completed] as
    null, a store in which every task has a non-empty title, a boolean
    [completed] and a 12-byte identifier stays such a store. *)
Theorem serve_keeps_inv (rqs : list request) (db : collection) :
  store_inv db → ids_wf db →
  Forall (λ rq, match rq with
                | POST _ oid _ => ObjectId_wf oid
                | PUT _ _ req_body => get_prop "completed" req_body ≠ Some JNull
                | _ => True
                end) rqs →
  store_inv (serve rqs db).2 ∧ ids_wf (serve rqs db).2.
Proof.
  intros Hinv Hwf Hrqs. revert db Hinv Hwf.
  induction Hrqs as [|rq rqs Hrq _ IH]; intros db Hinv Hwf; [done|].
  rewrite serve_cons.
  destruct (handle_keeps_inv rq db Hrq (conj Hinv Hwf)) as [Hinv' Hwf'].
  by apply IH.
Qed.

Lemma serve_keeps_inv_witness :
  let rqs := [ POST true 1%N (obj [("title", JStr "Buy milk")]);
               POST true 2%N (obj []);
               PUT true "000000000000000000000001" (obj [("completed", JBool true)]);
               GET true;
               DELETE true "000000000000000000000002" ] in
  store_inv (serve rqs ∅).2 ∧ ids_wf (serve rqs ∅).2.
Proof.
  intros rqs. apply serve_keeps_inv.
  - apply store_inv_empty.
  - intros k [v Hk]. by rewrite lookup_empty in Hk.
  - repeat constructor; try (unfold ObjectId_wf; lia); discriminate.
Defined.

(** X12. A stored task stays stored, under its identifier and with
    its title, over any sequence of requests that has no DELETE whose
    identifier casts to it; if the sequence has no such PUT either,
    its [completed] stays too. *)
Theorem task_persists (rqs : list request) (db : collection) (k : ObjectId)
    (t : string) (c : option bool) :
  db !! k = Some (t, c) →
  Forall (λ rq, match rq with
                | DELETE _ id => castObjectId id ≠ Ok k
                | _ => True
                end) rqs →
  ∃ c', (serve rqs db).2 !! k = Some (t, c')
        ∧ (Forall (λ rq, match rq with
                         | PUT _ id _ => castObjectId id ≠ Ok k
                         | _ => True
                         end) rqs → c' = c).
Proof.
  intros Hk Hrqs. revert db c Hk.
  induction Hrqs as [|rq rqs Hrq _ IH]; intros db c Hk.
  { exists c. by split. }
  assert (∃ c1, (handle rq db).2 !! k = Some (t, c1)
                ∧ (match rq with
                   | PUT _ id _ => castObjectId id ≠ Ok k
                   | _ => True
                   end → c1 = c)) as (c1 & Hk1 & Hc1).
  { destruct rq as [conn oid req_body | conn | conn id req_body | conn id]; simpl.
    - destruct (post_tasks_cases conn oid req_body db)
        as [-> | (s & _ & Hfresh & ->)]; [by exists c|].
      exists c. split; [|done]. simpl.
      rewrite lookup_insert_ne; [done|]. congruence.
    - exists c. by destruct conn.
    - destruct (put_tasks_store conn id req_body db)
        as [-> | (oid & upd & t0 & c0 & Hid & _ & _ & Hdb & ->)]; [by exists c|].
      destruct (decide (oid = k)) as [->|Hne].
      + rewrite lookup_insert_eq. exists (default c0 upd).
        split; [congruence|]. by intros Hput.
      + rewrite lookup_insert_ne by done. by exists c.
    - destruct (delete_tasks_cases conn id db) as [-> | (oid & Hid & ->)];
        [by exists c|].
      exists c. split; [|done]. simpl.
      rewrite lookup_delete_ne; [done|]. congruence. }
  destruct (IH _ c1 Hk1) as (c' & Hk' & Hc').
  exists c'. rewrite serve_cons. split; [done|].
  intros Hput. apply Forall_cons in Hput as [Hput1 Hput].
  rewrite Hc' by done. by apply Hc1.
Qed.

Lemma task_persists_witness :
  let db : collection := {[ 1%N := ("Buy milk", Some false) ]} in
  let rqs := [ POST true 1%N (obj [("title", JStr "Walk the dog")]);
               PUT true "000000000000000000000001" (obj [("completed", JBool true)]);
               DELETE true "000000000000000000000002" ] in
  ∃ c', (serve rqs db).2 !! 1%N = Some ("Buy milk", c').
Proof.
  intros db rqs.
  destruct (task_persists rqs db 1%N "Buy milk" (Some false))
    as (c' & Hc' & _).
  - reflexivity.
  - repeat constructor. discriminate.
  - by exists c'.
Defined.

(** ** The client *)

Section Client.
Implicit Types (db : collection) (st : ui) (id : string) (x : Task).

Lemma toHexString_inj (a b : ObjectId) :
  ObjectId_wf a → ObjectId_wf b → toHexString a = toHexString b → a = b.
Proof.
  intros Ha Hb Heq. apply castObjectId_toHexString in Ha, Hb.
  rewrite Heq in Ha. congruence.
Qed.

Lemma fetchTasks_up st db :
  fetchTasks true st db
  = ({| tasks := to_wire <$> listed db; form_title := form_title st;
        console_errors := console_errors st |}, db).
Proof. reflexivity. Qed.

Lemma fetchTasks_down st db : fetchTasks false st db = (st, db).
Proof. reflexivity. Qed.

Lemma find_id_None id (l : list ClientTask) :
  (∀ task, task ∈ l → c_id task ≠ id) →
  List.find (λ t, String.eqb (c_id t) id) l = None.
Proof.
  induction l as [|a l IH]; intros Hl; [done|]. simpl.
  destruct (String.eqb_spec (c_id a) id) as [Heq|_].
  - destruct (Hl a); [by left | done].
  - apply IH. intros task Htask. apply Hl. by right.
Qed.

Lemma find_id_Some id (l : list ClientTask) task :
  List.find (λ t, String.eqb (c_id t) id) l = Some task →
  task ∈ l ∧ c_id task = id.
Proof.
  intros Hf. apply find_some in Hf as [Hin Heq].
  split; [by apply list_elem_of_In | by apply String.eqb_eq].
Qed.

(** The lookup of a listed task by the writing of its identifier
    finds a task with the same identifier and fields. *)
Lemma find_listed db x :
  ids_wf db → x ∈ listed db →
  List.find (λ t, String.eqb (c_id t) (toHexString (_id x)))
    (to_wire <$> listed db) = Some (to_wire x).
Proof.
  intros Hwf Hx.
  destruct (List.find _ _) as [task|] eqn:Hf.
  - apply find_id_Some in Hf as [Hin Hid].
    apply list_elem_of_fmap in Hin as (y & -> & Hy). cbn [to_wire c_id] in Hid.
    pose proof Hx as Hx'. pose proof Hy as Hy'.
    apply elem_of_listed in Hx', Hy'.
    assert (_id y = _id x) as Heq.
    { apply toHexString_inj; [apply Hwf; by rewrite Hy'
                             | apply Hwf; by rewrite Hx' | done]. }
    rewrite Heq in Hy'. rewrite Hx' in Hy'. injection Hy' as Ht Hc.
    destruct x, y; cbn [_id title completed] in *. by subst.
  - exfalso. apply find_none with (x := to_wire x) in Hf.
    + cbn [to_wire c_id] in Hf. by rewrite String.eqb_refl in Hf.
    + apply list_elem_of_In. by apply list_elem_of_fmap_2.
Qed.

(** A toggle of a displayed task that is stored, store reachable. *)
Lemma handleComplete_found st db id task oid t c :
  List.find (λ t, String.eqb (c_id t) id) (tasks st) = Some task →
  castObjectId id = Ok oid → db !! oid = Some (t, c) →
  handleComplete true true id st db
  = fetchTasks true st
      (<[oid := (t, Some (negb (truthy (c_completed task))))]> db).
Proof.
  intros Hf Hid Hdb. unfold handleComplete. rewrite Hf.
  by rewrite (put_tasks_found db id oid _
                (Some (Some (negb (truthy (c_completed task))))) t c).
Qed.

End Client.

(** X13. The toggle acts on what is displayed: for a task found in
    [tasks] under [id] and stored under what [id] casts to, with the
    store reachable, it stores the negation of the displayed
    [completed] (null counting as false), whatever the stored value was,
    and then displays what the store holds. *)
Theorem handleComplete_negates_displayed (st : ui) (db : collection)
    (id : string) (task : ClientTask) (oid : ObjectId) (t : string)
    (c : option bool) :
  List.find (λ t, String.eqb (c_id t) id) (tasks st) = Some task →
  castObjectId id = Ok oid → db !! oid = Some (t, c) →
  let '(st', db') := handleComplete true true id st db in
  db' = <[oid := (t, Some (negb (truthy (c_completed task))))]> db
  ∧ in_sync st' db'
  ∧ form_title st' = form_title st.
Proof.
  intros Hf Hid Hdb.
  by rewrite (handleComplete_found st db id task oid t c), fetchTasks_up.
Qed.

Lemma handleComplete_negates_displayed_witness :
  let stale := {| tasks := [ {| c_id := "000000000000000000000001";
                                c_title := "Buy milk";
                                c_completed := Some false |} ];
                  form_title := ""; console_errors := 0 |} in
  let db : collection := {[ 1%N := ("Buy milk", Some true) ]} in
  (handleComplete true true "000000000000000000000001" stale db).2 = db.
Proof.
  intros stale db.
  pose proof (handleComplete_negates_displayed stale db
                "000000000000000000000001" _ 1%N "Buy milk" (Some true)
                eq_refl eq_refl eq_refl) as H.
  destruct (handleComplete _ _ _ _ _) as [st' db'].
  destruct H as (-> & _ & _). reflexivity.
Defined.

(** X14. With the page showing what the store holds and the store
    reachable, the toggle of a displayed task negates its stored
    [completed], touches no other task, and leaves the page showing
    what the store holds. *)
Theorem handleComplete_toggles (st : ui) (db : collection) (x : Task) :
  in_sync st db → ids_wf db → x ∈ listed db →
  let '(st', db') := handleComplete true true (toHexString (_id x)) st db in
  db' = <[_id x := (title x, Some (negb (truthy (completed x))))]> db
  ∧ in_sync st' db' ∧ ids_wf db'.
Proof.
  intros Hsync Hwf Hx.
  pose proof Hx as Hdb. apply elem_of_listed in Hdb.
  assert (ObjectId_wf (_id x)) as Hwfx by (apply Hwf; by rewrite Hdb).
  rewrite (handleComplete_found st db _ (to_wire x) (_id x) (title x)
             (completed x)); [| | by apply castObjectId_toHexString | done].
  - rewrite fetchTasks_up. split_and!; [done..|].
    by apply ids_wf_insert.
  - rewrite Hsync. by apply find_listed.
Qed.

Lemma handleComplete_toggles_witness :
  let db : collection := {[ 1%N := ("Buy milk", Some false) ]} in
  let st := {| tasks := to_wire <$> listed db; form_title := "";
               console_errors := 0 |} in
  (handleComplete true true "000000000000000000000001" st db).2
  = {[ 1%N := ("Buy milk", Some true) ]}.
Proof.
  intros db st.
  assert (Hwf : ids_wf db).
  { intros k [v Hk]. apply lookup_singleton_Some in Hk as [<- _].
    unfold ObjectId_wf. lia. }
  assert (Hx : {| _id := 1%N; title := "Buy milk"; completed := Some false |}
               ∈ listed db).
  { apply elem_of_listed. reflexivity. }
  pose proof (handleComplete_toggles st db _ eq_refl Hwf Hx) as H.
  change (toHexString _) with "000000000000000000000001" in H.
  destruct (handleComplete _ _ _ _ _) as [st' db'].
  destruct H as (-> & _ & _). simpl. apply insert_singleton_eq.
Defined.

(** X15. With the page showing what the store holds, toggling a
    displayed task whose [completed] is a boolean twice brings the
    store and the page back to where they were. *)
Theorem handleComplete_twice (st : ui) (db : collection) (x : Task) :
  in_sync st db → ids_wf db → x ∈ listed db → is_Some (completed x) →
  let id := toHexString (_id x) in
  let '(st1, db1) := handleComplete true true id st db in
  handleComplete true true id st1 db1 = (st, db).
Proof.
  intros Hsync Hwf Hx [b Hb] id. subst id.
  pose proof Hx as Hdb. apply elem_of_listed in Hdb.
  assert (ObjectId_wf (_id x)) as Hwfx by (apply Hwf; by rewrite Hdb).
  pose proof (castObjectId_toHexString _ Hwfx) as Hcast.
  rewrite (handleComplete_found st db _ (to_wire x) (_id x) (title x)
             (completed x)); [| by rewrite Hsync; apply find_listed | done..].
  rewrite fetchTasks_up. cbn [to_wire c_completed]. rewrite Hb. cbn [truthy default].
  set (db1 := <[_id x := (title x, Some (negb b))]> db).
  set (x1 := {| _id := _id x; title := title x; completed := Some (negb b) |}).
  assert (Hx1 : x1 ∈ listed db1).
  { apply elem_of_listed. subst db1 x1. by rewrite lookup_insert_eq. }
  rewrite (handleComplete_found _ db1 _ (to_wire x1) (_id x) (title x)
             (Some (negb b)));
    [| | done | by subst db1; rewrite lookup_insert_eq].
  - rewrite fetchTasks_up. cbn [to_wire c_completed completed x1 truthy default
                                 form_title console_errors].
    unfold id. subst db1. rewrite insert_insert_eq, negb_involutive.
    rewrite insert_id by (by rewrite Hdb, Hb).
    rewrite <- Hsync. by destruct st.
  - cbn [tasks]. apply (find_listed db1 x1); [|done].
    subst db1. by apply ids_wf_insert.
Qed.

Lemma handleComplete_twice_witness :
  let db : collection := {[ 1%N := ("Buy milk", Some false) ]} in
  let st := {| tasks := to_wire <$> listed db; form_title := "eggs";
               console_errors := 0 |} in
  let id := "000000000000000000000001" in
  handleComplete true true id (handleComplete true true id st db).1
    (handleComplete true true id st db).2 = (st, db).
Proof.
  intros db st id.
  assert (Hwf : ids_wf db).
  { intros k [v Hk]. apply lookup_singleton_Some in Hk as [<- _].
    unfold ObjectId_wf. lia. }
  assert (Hx : {| _id := 1%N; title := "Buy milk"; completed := Some false |}
               ∈ listed db).
  { apply elem_of_listed. reflexivity. }
  pose proof (handleComplete_twice st db _ eq_refl Hwf Hx
                (ex_intro _ false eq_refl)) as H.
  change (toHexString _) with id in H. cbv zeta in H.
  destruct (handleComplete true true id st db) as [st1 db1]. exact H.
Defined.

(** X16. The toggle of an identifier that no displayed task has sends
    no request: the page and the store stay as they are.  So do they
    when the PUT does not reach the store. *)
Theorem handleComplete_nothing (conn_put conn_get : bool) (st : ui)
    (db : collection) (id : string) :
  (∀ task, task ∈ tasks st → c_id task ≠ id) →
  handleComplete conn_put conn_get id st db = (st, db)
  ∧ (∀ st0 id0, handleComplete false conn_get id0 st0 db = (st0, db)).
Proof.
  intros Hid. split.
  - unfold handleComplete. by rewrite find_id_None.
  - intros st0 id0. unfold handleComplete.
    destruct (List.find _ _); [|done]. by rewrite put_tasks_down.
Qed.

Lemma handleComplete_nothing_witness :
  let db : collection := {[ 1%N := ("Buy milk", Some false) ]} in
  let st := {| tasks := []; form_title := ""; console_errors := 0 |} in
  handleComplete true true "000000000000000000000001" st db = (st, db).
Proof.
  intros db st.
  refine (proj1 (handleComplete_nothing true true st db _ _)).
  intros task Htask. by apply elem_of_nil in Htask.
Defined.

(** X17. A submit with a non-empty title, a reachable store and an
    unused generated identifier stores the task with that title and
    [completed] false and clears the field; the page then shows what
    the store holds if the List is answered, and what it showed
    before if not.  Nothing is logged. *)
Theorem handleSubmit_created (conn_get : bool) (st : ui) (db : collection)
    (oid : ObjectId) :
  form_title st ≠ "" → db !! oid = None →
  let '(st', db') := handleSubmit true oid conn_get st db in
  db' = <[oid := (form_title st, Some false)]> db
  ∧ form_title st' = ""
  ∧ tasks st' = (if conn_get then to_wire <$> listed db' else tasks st)
  ∧ console_errors st' = console_errors st.
Proof.
  intros Hne Hfresh. unfold handleSubmit.
  rewrite (post_tasks_created db oid _ (form_title st));
    [| by unfold obj, get_prop; simpl; rewrite lookup_insert_eq | done..].
  cbn [axios_ok status]. simpl (_ && _).
  by destruct conn_get.
Qed.

Lemma handleSubmit_created_witness :
  let st := {| tasks := []; form_title := "Buy milk"; console_errors := 0 |} in
  (handleSubmit true 7%N true st ∅).2 = {[ 7%N := ("Buy milk", Some false) ]}
  ∧ form_title (handleSubmit true 7%N true st ∅).1 = "".
Proof.
  intros st.
  pose proof (handleSubmit_created true st ∅ 7%N) as H.
  destruct (handleSubmit true 7%N true st ∅) as [st' db'].
  destruct H as (Hdb & Htitle & _); [discriminate | reflexivity |].
  split; [rewrite Hdb; reflexivity | exact Htitle].
Defined.

(** X18. A submit that is not answered 201, because the field is
    empty, the store is not reached or the generated identifier is
    taken, logs one error and changes nothing else: the field keeps
    its text, the page its tasks, the store its content. *)
Theorem handleSubmit_rejected (conn_post conn_get : bool) (st : ui)
    (db : collection) (oid : ObjectId) :
  form_title st = "" ∨ conn_post = false ∨ is_Some (db !! oid) →
  handleSubmit conn_post oid conn_get st db
  = ({| tasks := tasks st; form_title := form_title st;
        console_errors := S (console_errors st) |}, db).
Proof.
  intros Hwhy. unfold handleSubmit.
  destruct (post_tasks_cases conn_post oid
              (obj [("title", JStr (form_title st))]) db)
    as [-> | (s & Hs & Hfresh & Heq)]; [done|].
  exfalso. destruct Hwhy as [Hempty | [-> | [v Hv]]].
  - rewrite post_tasks_no_title in Heq; [done|].
    right; right. unfold obj, get_prop. simpl.
    by rewrite lookup_insert_eq, Hempty.
  - unfold post_tasks, save in Heq.
    by destruct (validate _).
  - by rewrite Hfresh in Hv.
Qed.

Lemma handleSubmit_rejected_witness :
  let st := {| tasks := []; form_title := "Buy milk"; console_errors := 0 |} in
  handleSubmit false 7%N true st ∅
  = ({| tasks := []; form_title := "Buy milk"; console_errors := 1 |}, ∅).
Proof.
  intros st. apply (handleSubmit_rejected false true st ∅ 7%N).
  right; left; reflexivity.
Defined.

(** X19. With the page showing what the store holds and the store
    reachable, the Delete button of a displayed task removes that task
    and no other, and the page then shows what the store holds, with
    no row of that identifier. *)
Theorem handleDelete_removes (st : ui) (db : collection) (x : Task) :
  in_sync st db → ids_wf db → x ∈ listed db →
  let id := toHexString (_id x) in
  let '(st', db') := handleDelete true true id st db in
  db' = delete (_id x) db
  ∧ in_sync st' db'
  ∧ (∀ task, task ∈ tasks st' → c_id task ≠ id).
Proof.
  intros Hsync Hwf Hx id. subst id.
  pose proof Hx as Hdb. apply elem_of_listed in Hdb.
  assert (ObjectId_wf (_id x)) as Hwfx by (apply Hwf; by rewrite Hdb).
  unfold handleDelete.
  rewrite (delete_tasks_up db _ (_id x)) by (by apply castObjectId_toHexString).
  cbn [axios_ok status]. simpl (_ && _). rewrite fetchTasks_up.
  split_and!; [done..|]. cbn [tasks].
  intros task Htask Hid.
  apply list_elem_of_fmap in Htask as (y & -> & Hy). cbn [to_wire c_id] in Hid.
  apply elem_of_listed in Hy.
  assert (_id y = _id x) as Heq.
  { apply toHexString_inj; [|done..].
    apply lookup_delete_Some in Hy as [_ Hy]. apply Hwf. by rewrite Hy. }
  rewrite Heq in Hy. by rewrite lookup_delete_eq in Hy.
Qed.

Lemma handleDelete_removes_witness :
  let db : collection :=
    {[ 1%N := ("Buy milk", Some false); 2%N := ("Walk the dog", Some true) ]} in
  let st := {| tasks := to_wire <$> listed db; form_title := "";
               console_errors := 0 |} in
  (handleDelete true true "000000000000000000000001" st db).2
  = delete 1%N db.
Proof.
  intros db st.
  assert (Hwf : ids_wf db).
  { intros k [v Hk]. apply lookup_insert_Some in Hk as [[<- _] | [_ Hk]].
    - unfold ObjectId_wf. lia.
    - apply lookup_singleton_Some in Hk as [<- _]. unfold ObjectId_wf. lia. }
  assert (Hx : {| _id := 1%N; title := "Buy milk"; completed := Some false |}
               ∈ listed db).
  { apply elem_of_listed. reflexivity. }
  pose proof (handleDelete_removes st db _ eq_refl Hwf Hx) as H.
  change (toHexString _) with "000000000000000000000001" in H. cbv zeta in H.
  destruct (handleDelete _ _ _ _ _) as [st' db'].
  by destruct H as (-> & _ & _).
Defined.

(** X20. After a toggle as in X14, the row of the task is shown the
    other way round: struck through with an Undo button if it was not
    completed, plain with a Complete button if it was; its text is
    its title as before. *)
Theorem toggle_flips_row (st : ui) (db : collection) (x : Task) :
  in_sync st db → ids_wf db → x ∈ listed db →
  let was := truthy (completed x) in
  let st' := (handleComplete true true (toHexString (_id x)) st db).1 in
  ∃ task, task ∈ tasks st'
          ∧ c_id task = toHexString (_id x)
          ∧ Task_component task
            = {| textDecoration := if was then "" else "line-through";
                 text := title x;
                 toggle_label := if was then "Complete" else "Undo" |}
          ∧ Task_component (to_wire x)
            = {| textDecoration := if was then "line-through" else "";
                 text := title x;
                 toggle_label := if was then "Undo" else "Complete" |}.
Proof.
  intros Hsync Hwf Hx was st'. subst st'.
  pose proof Hx as Hdb. apply elem_of_listed in Hdb.
  assert (ObjectId_wf (_id x)) as Hwfx by (apply Hwf; by rewrite Hdb).
  rewrite (handleComplete_found st db _ (to_wire x) (_id x) (title x)
             (completed x));
    [| by rewrite Hsync; apply find_listed
     | by apply castObjectId_toHexString | done].
  rewrite fetchTasks_up. cbn [fst tasks to_wire c_completed].
  exists (to_wire {| _id := _id x; title := title x;
                     completed := Some (negb was) |}).
  split_and!.
  - apply list_elem_of_fmap_2, elem_of_listed.
    cbn [_id title completed]. by rewrite lookup_insert_eq.
  - done.
  - unfold Task_component. cbn [to_wire c_completed c_title completed title
                                 truthy default].
    by destruct was.
  - done.
Qed.

Lemma toggle_flips_row_witness :
  let db : collection := {[ 1%N := ("Buy milk", Some false) ]} in
  let st := {| tasks := to_wire <$> listed db; form_title := "";
               console_errors := 0 |} in
  ∃ task,
    task ∈ tasks (handleComplete true true "000000000000000000000001" st db).1
    ∧ toggle_label (Task_component task) = "Undo".
Proof.
  intros db st.
  assert (Hwf : ids_wf db).
  { intros k [v Hk]. apply lookup_singleton_Some in Hk as [<- _].
    unfold ObjectId_wf. lia. }
  assert (Hx : {| _id := 1%N; title := "Buy milk"; completed := Some false |}
               ∈ listed db).
  { apply elem_of_listed. reflexivity. }
  destruct (toggle_flips_row st db _ eq_refl Hwf Hx)
    as (task & Hin & _ & Hrow & _).
  exists task. split; [exact Hin|]. by rewrite Hrow.
Defined.

(** X21. A task that a route answers is the task as the store holds
    it after the request: the saved task of a Create, and the task
    after the update ([new: true]) of an Update. *)
Theorem answered_task_is_stored (rq : request) (db : collection) (x : Task) :
  body (handle rq db).1 = PTask x →
  x ∈ listed (handle rq db).2
  ∧ match rq with POST _ _ _ | PUT _ _ _ => True | _ => False end.
Proof.
  destruct rq as [conn oid req_body | conn | conn id req_body | conn id];
    cbn [handle].
  - destruct (post_tasks_cases conn oid req_body db)
      as [-> | (s & _ & _ & ->)]; [done|].
    intros [= <-]. split; [|done]. apply elem_of_listed.
    cbn [snd _id title completed]. by rewrite lookup_insert_eq.
  - by destruct conn.
  - destruct (put_tasks_cases conn id req_body db)
      as [-> | [(oid & _ & _ & ->) | (oid & upd & t & c & _ & _ & _ & ->)]];
      [done..|].
    intros [= <-]. split; [|done]. apply elem_of_listed.
    cbn [snd _id title completed]. by rewrite lookup_insert_eq.
  - by destruct (delete_tasks_cases conn id db) as [-> | (oid & _ & ->)].
Qed.

Lemma answered_task_is_stored_witness :
  let db : collection := {[ 1%N := ("Buy milk", Some false) ]} in
  let rq := PUT true "000000000000000000000001" (obj [("completed", JBool true)]) in
  {| _id := 1%N; title := "Buy milk"; completed := Some true |}
  ∈ listed (handle rq db).2.
Proof.
  intros db rq.
  refine (proj1 (answered_task_is_stored rq db _ _)). reflexivity.
Defined.
